(** * Translator core of MU-ty/translator (src/translate/src/translator.py,
    src/translate/src/config_manager.py), shallow embedding.

    Python [str] values are modelled as lists of Unicode code points
    ([list N]); the string methods the code uses ([strip], [lstrip],
    [startswith], [split], [join]) are written out below with Python's
    semantics.  Model calls go through an oracle that may raise; every call
    is recorded in a log, so that what the code sends to the model can be
    stated. *)

From Stdlib Require Import String Ascii List NArith ZArith Bool Lia.
Import ListNotations.
Open Scope N_scope.
Open Scope list_scope.

(** ** Python strings *)

Definition pystr := list N.

(** An ASCII literal as a Python string. *)
Definition lit (s : string) : pystr :=
  map (fun a => N_of_ascii a) (list_ascii_of_string s).

(** [str.isspace] on one code point (the characters Python's [strip] removes). *)
Definition isspace (c : N) : bool :=
  ((9 <=? c) && (c <=? 13)) || ((28 <=? c) && (c <=? 32))
  || (c =? 133) || (c =? 160) || (c =? 5760)
  || ((8192 <=? c) && (c <=? 8202))
  || (c =? 8232) || (c =? 8233) || (c =? 8239) || (c =? 8287)
  || (c =? 12288).

(** [s.lstrip()] *)
Fixpoint lstrip (s : pystr) : pystr :=
  match s with
  | [] => []
  | c :: r => if isspace c then lstrip r else s
  end.

(** [s.rstrip()] *)
Definition rstrip (s : pystr) : pystr := rev (lstrip (rev s)).

(** [s.strip()] *)
Definition strip (s : pystr) : pystr := rstrip (lstrip s).

(** [s.startswith(p)] *)
Fixpoint startswith (s p : pystr) : bool :=
  match p, s with
  | [], _ => true
  | x :: p', y :: s' => (x =? y) && startswith s' p'
  | _ :: _, [] => false
  end.

Definition pystr_eqb (a b : pystr) : bool := if list_eq_dec N.eq_dec a b then true else false.

(** Python truthiness of a string: [bool(s)] *)
Definition truthy (s : pystr) : bool := match s with [] => false | _ => true end.

Definition newline : N := 10.

(** [s.split('\n')] *)
Fixpoint split_lines (s : pystr) : list pystr :=
  match s with
  | [] => [[]]
  | c :: r =>
      let parts := split_lines r in
      if c =? newline then [] :: parts
      else match parts with
           | p :: ps => (c :: p) :: ps
           | [] => [[c]]
           end
  end.

(** [sep.join(xs)] *)
Fixpoint join (sep : pystr) (xs : list pystr) : pystr :=
  match xs with
  | [] => []
  | [x] => x
  | x :: r => x ++ sep ++ join sep r
  end.

(** [s.split('\n\n')]: the blank-line-separated units of a text. *)
Fixpoint split_units (s : pystr) : list pystr :=
  match s with
  | [] => [[]]
  | c :: r =>
      match c =? newline, r with
      | true, d :: r' =>
          if d =? newline then [] :: split_units r'
          else match split_units r with
               | p :: ps => (c :: p) :: ps
               | [] => [[c]]
               end
      | _, _ =>
          match split_units r with
          | p :: ps => (c :: p) :: ps
          | [] => [[c]]
          end
      end
  end.

(** Whether a text contains a blank line separator ["\n\n"]. *)
Fixpoint has_blank (s : pystr) : bool :=
  match s with
  | c :: ((d :: _) as r) => ((c =? newline) && (d =? newline)) || has_blank r
  | _ => false
  end.

(** ** [SmartTranslator._merge_translated_chunks] *)

(** ['\n\n'.join(chunk.strip() for chunk in translated_chunks if chunk.strip())] *)
Definition _merge_translated_chunks (translated_chunks : list pystr) : pystr :=
  join [newline; newline]
    (map strip (filter (fun chunk => truthy (strip chunk)) translated_chunks)).

(** ** Data model *)

(** [TextChunk] from text_chunker: its content and its [chunk_type] tag. *)
Record TextChunk := mkChunk { content : pystr; chunk_type : pystr }.

(** Summary record produced by the summary generator. *)
Record Summary := mkSummary { topic : pystr; key_points : list pystr }.

(** Result dict of [compare_summaries]. *)
Record ComparisonResult := mkComparison {
  completeness_score : Z;
  missing_content : pystr;
  suggestions : pystr }.

(** The [stats] dict returned by [translate_content]. *)
Record Stats := mkStats {
  original_summary : Summary;
  translated_summary : Summary;
  comparison_result : ComparisonResult;
  chunk_count : nat;
  stats_completeness_score : Z }.

(** Requests to the model: [translation_chain] and [retranslation_chain]. *)
Inductive request :=
| RTranslate (content : pystr)
| RRetranslate (original_text missing : pystr)
| RTranslateWithContext (content context : pystr).

(** What happens during a run, in order.  A model call records its raw
    response, [None] when the call raised. *)
Inductive event :=
| ECall (r : request) (response : option pystr)
| ESummaryOriginal (c : pystr) (s : Summary)
| ESummaryTranslated (c : pystr) (s : Summary)
| ECompare (o t : Summary) (res : ComparisonResult).

Definition log := list event.

(** The collaborators of [SmartTranslator], each may depend on everything
    that happened before. *)
Record Env := mkEnv {
  llm : log -> request -> option pystr;
  summarize_original : log -> pystr -> option Summary;
  summarize_translated : log -> pystr -> option Summary;
  judge : log -> Summary -> Summary -> option ComparisonResult;
  comparison_fallback : ComparisonResult;
  chunk_text : pystr -> list TextChunk }.

(** ** Python exceptions and state as a monad *)

Inductive outcome (A : Type) := Ret (a : A) | Raise.
Arguments Ret {A} a.
Arguments Raise {A}.

Definition M (A : Type) := log -> outcome A * log.

Definition ret {A} (a : A) : M A := fun h => (Ret a, h).

Definition bind {A B} (m : M A) (k : A -> M B) : M B :=
  fun h => match m h with
           | (Ret a, h') => k a h'
           | (Raise, h') => (Raise, h')
           end.

Notation "x <- m ;; k" := (bind m (fun x => k)) (at level 61, m at next level, right associativity).

(** [try: m except: handler] *)
Definition try_except {A} (m : M A) (handler : M A) : M A :=
  fun h => match m h with
           | (Ret a, h') => (Ret a, h')
           | (Raise, h') => handler h'
           end.

Section Translator.

Context (env : Env).

(** [TranslationOutputParser.parse]: the model's text, stripped. *)
Definition invoke (r : request) : M pystr :=
  fun h => match llm env h r with
           | Some raw => (Ret (strip raw), h ++ [ECall r (Some raw)])
           | None => (Raise, h ++ [ECall r None])
           end.

(** Modelled from the spec: [SummaryGenerator] (src/summary_generator.py is
    not among the sources).  Summary generation never raises: a failed or
    unparseable response gives an empty summary. *)
Definition empty_summary : Summary := mkSummary [] [].

Definition generate_original_summary (c : pystr) : M Summary :=
  fun h => let s := match summarize_original env h c with
                    | Some s => s | None => empty_summary end in
           (Ret s, h ++ [ESummaryOriginal c s]).

Definition generate_translated_summary (c : pystr) : M Summary :=
  fun h => let s := match summarize_translated env h c with
                    | Some s => s | None => empty_summary end in
           (Ret s, h ++ [ESummaryTranslated c s]).

Definition clamp_score (z : Z) : Z := Z.max 0 (Z.min 10 z).

(** Modelled from the spec: [SummaryGenerator.compare_summaries]; never
    raises, the score is clamped to [0, 10] and a parse failure gives the
    conservative fallback result. *)
Definition compare_summaries (o t : Summary) : M ComparisonResult :=
  fun h => let r := match judge env h o t with
                    | Some r => mkComparison (clamp_score (completeness_score r))
                                  (missing_content r) (suggestions r)
                    | None => comparison_fallback env
                    end in
           (Ret r, h ++ [ECompare o t r]).

(** The comment test of [_translate_code_block]. *)
Definition is_comment_line (line : pystr) : bool :=
  startswith (strip line) (lit "#") || startswith (strip line) (lit "//").

(** One iteration of the loop of [_translate_code_block]. *)
Definition translate_code_line (line : pystr) : M pystr :=
  if is_comment_line line then
    try_except
      (comment_translation <- invoke (RTranslate (strip line)) ;;
       let indent := (length line - length (lstrip line))%nat in
       ret (repeat 32 indent ++ comment_translation))
      (ret line)
  else ret line.

Fixpoint translate_code_lines (lines : list pystr) : M (list pystr) :=
  match lines with
  | [] => ret []
  | line :: rest =>
      t <- translate_code_line line ;;
      ts <- translate_code_lines rest ;;
      ret (t :: ts)
  end.

(** [SmartTranslator._translate_code_block] *)
Definition _translate_code_block (code_content : pystr) : M pystr :=
  translated_lines <- translate_code_lines (split_lines code_content) ;;
  ret (join [newline] translated_lines).

(** ["翻译失败: "] *)
Definition failure_prefix : pystr := [32763; 35793; 22833; 36133; 58; 32].

(** [SmartTranslator.translate_chunk] *)
Definition translate_chunk (chunk : TextChunk) : M pystr :=
  try_except
    (if pystr_eqb (chunk_type chunk) (lit "code")
     then _translate_code_block (content chunk)
     else invoke (RTranslate (content chunk)))
    (ret (failure_prefix ++ content chunk)).

(** The loop [for i, chunk in enumerate(chunks)] of [translate_content]. *)
Fixpoint translate_chunks (chunks : list TextChunk) : M (list pystr) :=
  match chunks with
  | [] => ret []
  | chunk :: rest =>
      translated_content <- translate_chunk chunk ;;
      translated_chunks <- translate_chunks rest ;;
      ret (translated_content :: translated_chunks)
  end.

(** [SmartTranslator._retranslate_with_focus]; Python's [None] is [None]. *)
Definition _retranslate_with_focus (original_content missing : pystr) : M (option pystr) :=
  try_except
    (retranslated <- invoke (RRetranslate original_content missing) ;;
     ret (Some retranslated))
    (ret None).

(** ["无"], the "nothing missing" sentinel. *)
Definition sentinel_none : pystr := [26080].

(** The guard of the focused-retranslation branch. *)
Definition needs_retranslation (cr : ComparisonResult) : bool :=
  Z.ltb (completeness_score cr) 8 && negb (pystr_eqb (missing_content cr) sentinel_none).

Definition make_stats (os ts : Summary) (cr : ComparisonResult) (n : nat) : Stats :=
  mkStats os ts cr n (completeness_score cr).

(** [SmartTranslator.translate_content] *)
Definition translate_content (content : pystr) : M (pystr * Stats) :=
  original_summary <- generate_original_summary content ;;
  let chunks := chunk_text env content in
  translated_chunks <- translate_chunks chunks ;;
  let translated_content := _merge_translated_chunks translated_chunks in
  translated_summary <- generate_translated_summary translated_content ;;
  comparison_result <- compare_summaries original_summary translated_summary ;;
  if needs_retranslation comparison_result then
    retranslated_content <- _retranslate_with_focus content (missing_content comparison_result) ;;
    match retranslated_content with
    | Some r =>
        if truthy r then
          translated_summary' <- generate_translated_summary r ;;
          comparison_result' <- compare_summaries original_summary translated_summary' ;;
          ret (r, make_stats original_summary translated_summary' comparison_result'
                    (length chunks))
        else ret (translated_content, make_stats original_summary translated_summary
                    comparison_result (length chunks))
    | None => ret (translated_content, make_stats original_summary translated_summary
                    comparison_result (length chunks))
    end
  else ret (translated_content, make_stats original_summary translated_summary
              comparison_result (length chunks)).

(** [SmartTranslator.translate_with_context]: the enhanced chain is the
    translation prompt with the context added, sent to the same model. *)
Definition translate_with_context (c context : pystr) : M pystr :=
  if truthy context then
    try_except (invoke (RTranslateWithContext c context))
      (translate_chunk (mkChunk c (lit "paragraph")))
  else translate_chunk (mkChunk c (lit "paragraph")).

End Translator.

(** ** Auxiliary predicates on logs *)

Definition is_translate_call (e : event) : Prop :=
  exists c r, e = ECall (RTranslate c) r.

Definition indent_of (line : pystr) : nat := (length line - length (lstrip line))%nat.

(** What one line of a code block becomes, with the calls it makes. *)
Inductive code_line_step : pystr -> log -> pystr -> Prop :=
| CL_plain line :
    is_comment_line line = false ->
    code_line_step line [] line
| CL_translated line raw :
    is_comment_line line = true ->
    code_line_step line [ECall (RTranslate (strip line)) (Some raw)]
      (repeat 32 (indent_of line) ++ strip raw)
| CL_failed line :
    is_comment_line line = true ->
    code_line_step line [ECall (RTranslate (strip line)) None] line.

Inductive code_lines_step : list pystr -> log -> list pystr -> Prop :=
| CLs_nil : code_lines_step [] [] []
| CLs_cons line ev out lines evs outs :
    code_line_step line ev out ->
    code_lines_step lines evs outs ->
    code_lines_step (line :: lines) (ev ++ evs) (out :: outs).

(** ** The focused-retranslation branch of [translate_content] *)

(** What the branch after the first comparison does, given the original
    summary [os], the merged translation [merged], its summary [ts], the
    comparison [cr] and the number of chunks [n]: the events it adds and
    the result returned. *)
Inductive retranslation_branch (content : pystr) (os : Summary) (merged : pystr)
    (ts : Summary) (cr : ComparisonResult) (n : nat) : log -> pystr * Stats -> Prop :=
| RB_skipped :
    needs_retranslation cr = false ->
    retranslation_branch content os merged ts cr n [] (merged, make_stats os ts cr n)
| RB_failed :
    needs_retranslation cr = true ->
    retranslation_branch content os merged ts cr n
      [ECall (RRetranslate content (missing_content cr)) None]
      (merged, make_stats os ts cr n)
| RB_empty raw :
    needs_retranslation cr = true -> truthy (strip raw) = false ->
    retranslation_branch content os merged ts cr n
      [ECall (RRetranslate content (missing_content cr)) (Some raw)]
      (merged, make_stats os ts cr n)
| RB_replaced raw ts' cr' :
    needs_retranslation cr = true -> truthy (strip raw) = true ->
    retranslation_branch content os merged ts cr n
      [ECall (RRetranslate content (missing_content cr)) (Some raw);
       ESummaryTranslated (strip raw) ts'; ECompare os ts' cr']
      (strip raw, make_stats os ts' cr' n).

(** Counting and finding events in a log. *)
Definition is_retranslation_call (e : event) : bool :=
  match e with ECall (RRetranslate _ _) _ => true | _ => false end.

Definition is_translated_summary (e : event) : bool :=
  match e with ESummaryTranslated _ _ => true | _ => false end.

Definition is_comparison (e : event) : bool :=
  match e with ECompare _ _ _ => true | _ => false end.

Definition count_retranslation_calls (l : log) : nat := length (filter is_retranslation_call l).
Definition count_translated_summaries (l : log) : nat := length (filter is_translated_summary l).
Definition count_comparisons (l : log) : nat := length (filter is_comparison l).

Fixpoint first_comparison (l : log) : option ComparisonResult :=
  match l with
  | [] => None
  | ECompare _ _ r :: _ => Some r
  | _ :: l' => first_comparison l'
  end.

Definition last_translated_summary (l : log) : option (pystr * Summary) :=
  fold_left (fun acc e => match e with
                          | ESummaryTranslated c s => Some (c, s)
                          | _ => acc end) l None.

Definition last_comparison (l : log) : option (Summary * Summary * ComparisonResult) :=
  fold_left (fun acc e => match e with
                          | ECompare o t r => Some (o, t, r)
                          | _ => acc end) l None.

(** ** [ConfigManager.get_openai_config] (config_manager.py) *)

(** The [[openai]] section of the loaded config.ini: [config.get('openai',
    key, fallback=...)] sees [None] for a key that is absent. *)
Record OpenaiSection := mkOpenaiSection {
  ini_api_key : option pystr;
  ini_base_url : option pystr }.

(** The parsed config file; [None] when [has_section('openai')] is false. *)
Record ConfigFile := mkConfigFile { openai_section : option OpenaiSection }.

(** Python truthiness of an [Optional[str]]: [None] and [""] are false. *)
Definition opt_truthy (o : option pystr) : bool :=
  match o with Some s => truthy s | None => false end.

Definition opt_pystr_eqb (a b : option pystr) : bool :=
  match a, b with
  | Some x, Some y => pystr_eqb x y
  | None, None => true
  | _, _ => false
  end.

Definition api_key_placeholder : pystr := lit "your_openai_api_key_here".
Definition default_base_url : pystr := lit "https://api.openai.com/v1".

(** [os.getenv(name, default)] *)
Definition getenv_default (environ : pystr -> option pystr) (name d : pystr) : pystr :=
  match environ name with Some v => v | None => d end.

Definition get_openai_config (cfg : ConfigFile) (environ : pystr -> option pystr)
    (api_key base_url : option pystr) : option pystr * option pystr :=
  (* config = {'api_key': api_key, 'base_url': base_url} *)
  let cfg_api_key :=
    if negb (opt_truthy api_key) then
      match openai_section cfg with
      | Some sec =>
          let v := ini_api_key sec in
          if opt_pystr_eqb v (Some api_key_placeholder) then None else v
      | None => api_key
      end
    else api_key in
  let cfg_base_url :=
    if negb (opt_truthy base_url) then
      match openai_section cfg with
      | Some sec => Some (match ini_base_url sec with Some v => v | None => default_base_url end)
      | None => base_url
      end
    else base_url in
  let cfg_api_key :=
    if negb (opt_truthy cfg_api_key) then environ (lit "OPENAI_API_KEY") else cfg_api_key in
  let cfg_base_url :=
    if negb (opt_truthy cfg_base_url)
    then Some (getenv_default environ (lit "OPENAI_BASE_URL") default_base_url)
    else cfg_base_url in
  (cfg_api_key, cfg_base_url).

(** The whole parsed config.ini as [ConfigManager] reads it: the
    [[openai]] section, the [[qwen]] section ([None] when absent; inside,
    the value of its [api_key] key, [None] when absent) and the
    [[default]] section (a lookup of its keys).  Values are those
    [ConfigParser.get] returns. *)
Record Config := mkConfig {
  cfg_file : ConfigFile;
  qwen_section : option (option pystr);
  default_section : option (pystr -> option pystr) }.

Definition qwen_key_placeholder : pystr := lit "your_dashscope_api_key_here".

(** [ConfigManager.get_qwen_config]; the dict [{'api_key': ...}] is its
    one value. *)
Definition get_qwen_config (cfg : Config) (environ : pystr -> option pystr)
    (api_key : option pystr) : option pystr :=
  let cfg_api_key :=
    if negb (opt_truthy api_key) then
      match qwen_section cfg with
      | Some v => if opt_pystr_eqb v (Some qwen_key_placeholder) then None else v
      | None => api_key
      end
    else api_key in
  if negb (opt_truthy cfg_api_key) then environ (lit "DASHSCOPE_API_KEY") else cfg_api_key.

(** A Python dict with string keys and values, as an association list in
    insertion order. *)
Definition pydict := list (pystr * pystr).

Fixpoint dict_get (d : pydict) (k : pystr) : option pystr :=
  match d with
  | [] => None
  | (k', v) :: d' => if pystr_eqb k k' then Some v else dict_get d' k
  end.

(** [d[k] = v] for a key [k] already in [d]. *)
Definition dict_set (d : pydict) (k v : pystr) : pydict :=
  map (fun '(k', v') => if pystr_eqb k k' then (k', v) else (k', v')) d.

Definition builtin_defaults : pydict :=
  [(lit "model_name", lit "gpt-3.5-turbo");
   (lit "provider", lit "auto");
   (lit "translator_id", lit "FILL_YOUR_GITHUB_ID_HERE");
   (lit "max_tokens", lit "800")].

(** [ConfigManager.get_default_config] *)
Definition get_default_config (cfg : Config) (environ : pystr -> option pystr) : pydict :=
  let defaults :=
    match default_section cfg with
    | Some sec =>
        (* for key in defaults: defaults[key] = config.get('default', key, fallback=defaults[key]) *)
        map (fun '(k, v) => (k, match sec k with Some x => x | None => v end)) builtin_defaults
    | None => builtin_defaults
    end in
  let defaults := dict_set defaults (lit "model_name")
      (getenv_default environ (lit "MODEL_NAME")
         (match dict_get defaults (lit "model_name") with Some v => v | None => [] end)) in
  dict_set defaults (lit "provider")
      (getenv_default environ (lit "MODEL_PROVIDER")
         (match dict_get defaults (lit "provider") with Some v => v | None => [] end)).

(** [str.lower()], as far as comparisons with ASCII strings go: ASCII
    letters are lowered, and the only two non-ASCII characters whose
    lowercase contains ASCII are mapped as Python does (U+212A KELVIN SIGN
    to "k", U+0130 to "i" followed by U+0307); every other character keeps
    a non-ASCII lowercase in Python and is left as it is. *)
Definition lower_char (c : N) : list N :=
  if (65 <=? c) && (c <=? 90) then [c + 32]
  else if c =? 8490 then [107]
  else if c =? 304 then [105; 775]
  else [c].

Definition lower (s : pystr) : pystr := flat_map lower_char s.

(** [ConfigManager.validate_config] with the keyword arguments
    [openai_api_key], [openai_base_url] and [qwen_api_key]. *)
Definition validate_config (cfg : Config) (environ : pystr -> option pystr)
    (provider : pystr) (openai_api_key openai_base_url qwen_api_key : option pystr) : bool :=
  if pystr_eqb (lower provider) (lit "openai") then
    opt_truthy (fst (get_openai_config (cfg_file cfg) environ openai_api_key openai_base_url))
  else if pystr_eqb (lower provider) (lit "qwen") then
    opt_truthy (get_qwen_config cfg environ qwen_api_key)
  else if pystr_eqb (lower provider) (lit "auto") then
    opt_truthy (fst (get_openai_config (cfg_file cfg) environ openai_api_key None))
    || opt_truthy (get_qwen_config cfg environ qwen_api_key)
  else false.

(** Model calls of the translation chain in a log. *)
Definition is_chunk_translation_call (e : event) : bool :=
  match e with ECall (RTranslate _) _ => true | _ => false end.

(** How many translation calls [translate_chunk] makes for a chunk: one
    per comment line of a code chunk, one for any other chunk. *)
Definition chunk_call_count (chunk : TextChunk) : nat :=
  if pystr_eqb (chunk_type chunk) (lit "code")
  then length (filter is_comment_line (split_lines (content chunk)))
  else 1.

(** ** Concrete collaborators, for running the code on examples *)

(** A model that prefixes what it translates with "T" and gives [answer]
    to every retranslation request ([None]: the call raises); the judge
    scores 5 with "x" missing; one chunk per document. *)
Definition env_retranslating (answer : option pystr) : Env :=
  mkEnv (fun _ r => match r with
                    | RTranslate c => Some (lit "T" ++ c)
                    | RRetranslate _ _ => answer
                    | RTranslateWithContext c _ => Some (lit "T" ++ c)
                    end)
        (fun _ c => Some (mkSummary c []))
        (fun _ c => Some (mkSummary c []))
        (fun _ _ _ => Some (mkComparison 5 (lit "x") []))
        (mkComparison 10 sentinel_none [])
        (fun c => [mkChunk c (lit "paragraph")]).

Definition env_echo : Env := env_retranslating (Some (lit "R")).

(** The echo model with a chunker that finds no chunk. *)
Definition env_no_chunks : Env :=
  mkEnv (llm env_echo) (summarize_original env_echo) (summarize_translated env_echo)
        (judge env_echo) (comparison_fallback env_echo) (fun _ => []).

(** A model that translates every comment to "# 你好". *)
Definition env_hello : Env :=
  mkEnv (fun _ _ => Some [35; 32; 20320; 22909])
        (fun _ c => Some (mkSummary c []))
        (fun _ c => Some (mkSummary c []))
        (fun _ _ _ => None)
        (mkComparison 10 sentinel_none [])
        (fun c => [mkChunk c (lit "code")]).

(** A model that is unreachable: every call raises. *)
Definition env_down : Env :=
  mkEnv (fun _ _ => None)
        (fun _ _ => None)
        (fun _ _ => None)
        (fun _ _ _ => None)
        (mkComparison 5 (lit "x") [])
        (fun c => [mkChunk c (lit "paragraph")]).

(** ** Python string lemmas *)

Lemma split_lines_not_nil (s : pystr) : split_lines s <> [].
Proof.
  induction s as [|c r IH]; simpl; [discriminate|].
  destruct (c =? newline); [discriminate|].
  destruct (split_lines r); discriminate.
Qed.

Lemma join_cons_head (sep p : pystr) (c : N) (ps : list pystr) :
  join sep ((c :: p) :: ps) = c :: join sep (p :: ps).
Proof. destruct ps; reflexivity. Qed.

(** ['\n'.join(s.split('\n')) == s] *)
Lemma join_split_lines (s : pystr) : join [newline] (split_lines s) = s.
Proof.
  induction s as [|c r IH]; [reflexivity|].
  simpl. destruct (c =? newline) eqn:Ec.
  - apply N.eqb_eq in Ec. subst c.
    pose proof (split_lines_not_nil r) as Hne.
    destruct (split_lines r) as [|p ps] eqn:E; [contradiction|].
    simpl. rewrite <- IH. reflexivity.
  - pose proof (split_lines_not_nil r) as Hne.
    destruct (split_lines r) as [|p ps] eqn:E; [contradiction|].
    rewrite join_cons_head, IH. reflexivity.
Qed.

(** ** Code blocks *)

Lemma code_line_step_calls line ev out :
  code_line_step line ev out -> Forall is_translate_call ev.
Proof.
  intros H; inversion H; subst; repeat constructor; eexists; eexists; reflexivity.
Qed.

Lemma code_lines_step_calls lines ev outs :
  code_lines_step lines ev outs -> Forall is_translate_call ev.
Proof.
  induction 1; [constructor|].
  apply Forall_app; split; [eapply code_line_step_calls; eauto | assumption].
Qed.

Lemma code_lines_step_length lines ev outs :
  code_lines_step lines ev outs -> length outs = length lines.
Proof. induction 1; simpl; congruence. Qed.

Lemma translate_code_line_spec env line h :
  exists ev out, translate_code_line env line h = (Ret out, h ++ ev)
                 /\ code_line_step line ev out.
Proof.
  unfold translate_code_line.
  destruct (is_comment_line line) eqn:Hc.
  - unfold try_except, bind, invoke, ret.
    destruct (llm env h (RTranslate (strip line))) as [raw|] eqn:Hl.
    + do 2 eexists; split; [reflexivity|]. now apply CL_translated.
    + do 2 eexists; split; [reflexivity|]. now apply CL_failed.
  - exists [], line; split; [now rewrite app_nil_r | now apply CL_plain].
Qed.

Lemma translate_code_lines_spec env lines h :
  exists ev outs, translate_code_lines env lines h = (Ret outs, h ++ ev)
                  /\ code_lines_step lines ev outs.
Proof.
  revert h; induction lines as [|line lines IH]; intros h.
  - exists [], []; split; [now rewrite app_nil_r | constructor].
  - simpl. unfold bind at 1.
    destruct (translate_code_line_spec env line h) as (ev1 & o1 & E1 & S1).
    rewrite E1.
    destruct (IH (h ++ ev1)) as (ev2 & os & E2 & S2).
    unfold bind. rewrite E2.
    exists (ev1 ++ ev2), (o1 :: os); split.
    + unfold ret. now rewrite app_assoc.
    + now constructor.
Qed.

Lemma translate_code_block_spec env code h :
  exists ev outs, _translate_code_block env code h = (Ret (join [newline] outs), h ++ ev)
                  /\ code_lines_step (split_lines code) ev outs.
Proof.
  unfold _translate_code_block, bind.
  destruct (translate_code_lines_spec env (split_lines code) h) as (ev & outs & E & S).
  rewrite E. exists ev, outs. split; [reflexivity | exact S].
Qed.

Lemma code_lines_step_plain lines ev outs :
  code_lines_step lines ev outs ->
  forallb (fun l => negb (is_comment_line l)) lines = true ->
  ev = [] /\ outs = lines.
Proof.
  induction 1 as [|line ev out lines evs outs Hs Hss IH]; simpl; [auto|].
  intros Hb. apply andb_prop in Hb as [H1 H2].
  destruct (IH H2) as [-> ->].
  inversion Hs; subst; simpl in H1; try (rewrite H in H1; discriminate).
  split; reflexivity.
Qed.

(** ** Claims on code blocks *)

(** C9: in [_translate_code_block], a model call that fails on one comment
    line is contained to that line: the block never raises, every line is
    processed in order, and a line whose call failed is kept verbatim
    ([CL_failed]). *)
Theorem code_block_line_failure_contained (env : Env) (code : pystr) (h : log) :
  exists ev outs,
    _translate_code_block env code h = (Ret (join [newline] outs), h ++ ev)
    /\ code_lines_step (split_lines code) ev outs
    /\ length outs = length (split_lines code).
Proof.
  destruct (translate_code_block_spec env code h) as (ev & outs & E & S).
  exists ev, outs; repeat split; [exact E | exact S | eapply code_lines_step_length; eauto].
Qed.

(** C4: a code block none of whose lines is a comment comes back
    unchanged, and no model call is made. *)
Theorem code_block_without_comments_identity (env : Env) (code : pystr) (h : log)
  (Hnc : forallb (fun l => negb (is_comment_line l)) (split_lines code) = true) :
  _translate_code_block env code h = (Ret code, h).
Proof.
  destruct (translate_code_block_spec env code h) as (ev & outs & E & S).
  destruct (code_lines_step_plain _ _ _ S Hnc) as [-> ->].
  rewrite E, join_split_lines, app_nil_r. reflexivity.
Qed.

Lemma code_block_without_comments_identity_witness :
  forallb (fun l => negb (is_comment_line l)) (split_lines (lit "x = 1" ++ [newline] ++ lit "y")) = true
  /\ _translate_code_block env_echo (lit "x = 1" ++ [newline] ++ lit "y") []
     = (Ret (lit "x = 1" ++ [newline] ++ lit "y"), []).
Proof.
  split; [reflexivity|].
  apply code_block_without_comments_identity. reflexivity.
Defined.

(** C3 (code_bug): the code means to keep the original indentation of a
    translated comment line ("保持原有的缩进") but rebuilds it as
    [' ' * indent]: a tab-indented comment "\t# hi" comes back indented by
    one space. *)
Theorem code_block_tab_indent_lost :
  _translate_code_block env_hello [9; 35; 32; 104; 105] []
  = (Ret [32; 35; 32; 20320; 22909],
     [ECall (RTranslate [35; 32; 104; 105]) (Some [35; 32; 20320; 22909])])
  /\ startswith [32; 35; 32; 20320; 22909] [9] = false.
Proof. split; reflexivity. Qed.

(** ** Chunks *)

Lemma translate_chunk_spec env chunk h :
  exists ev out, translate_chunk env chunk h = (Ret out, h ++ ev)
                 /\ Forall is_translate_call ev.
Proof.
  unfold translate_chunk, try_except.
  destruct (pystr_eqb (chunk_type chunk) (lit "code")).
  - destruct (translate_code_block_spec env (content chunk) h) as (ev & outs & E & S).
    rewrite E. do 2 eexists; split; [reflexivity|].
    eapply code_lines_step_calls; eauto.
  - unfold invoke, ret.
    destruct (llm env h (RTranslate (content chunk))).
    + do 2 eexists; split; [reflexivity|]. repeat constructor. do 2 eexists; reflexivity.
    + do 2 eexists; split; [reflexivity|]. repeat constructor. do 2 eexists; reflexivity.
Qed.

Lemma translate_chunks_spec env chunks h :
  exists ev outs, translate_chunks env chunks h = (Ret outs, h ++ ev)
                  /\ length outs = length chunks
                  /\ Forall is_translate_call ev.
Proof.
  revert h; induction chunks as [|chunk chunks IH]; intros h.
  - exists [], []; repeat split; [now rewrite app_nil_r | constructor].
  - simpl. unfold bind at 1.
    destruct (translate_chunk_spec env chunk h) as (ev1 & o1 & E1 & C1).
    rewrite E1.
    destruct (IH (h ++ ev1)) as (ev2 & os & E2 & L2 & C2).
    unfold bind. rewrite E2.
    exists (ev1 ++ ev2), (o1 :: os); repeat split.
    + unfold ret. now rewrite app_assoc.
    + simpl; congruence.
    + now apply Forall_app.
Qed.

(** C5 (amended): when the model call for a chunk that is not of type
    "code" raises, [translate_chunk] returns the marker "翻译失败: "
    followed by the untranslated chunk; [translate_chunk] never raises for
    any chunk, so the loop of [translate_content] goes on to the next chunk
    and yields one result per chunk. *)
Theorem chunk_failure_marked_and_loop_continues (env : Env) (chunk : TextChunk) (h : log)
  (Hnc : pystr_eqb (chunk_type chunk) (lit "code") = false)
  (Hfail : llm env h (RTranslate (content chunk)) = None) :
  translate_chunk env chunk h
  = (Ret (failure_prefix ++ content chunk), h ++ [ECall (RTranslate (content chunk)) None])
  /\ (forall c h', exists ev out, translate_chunk env c h' = (Ret out, h' ++ ev))
  /\ (forall chunks h', exists ev outs,
        translate_chunks env chunks h' = (Ret outs, h' ++ ev)
        /\ length outs = length chunks).
Proof.
  split; [|split].
  - unfold translate_chunk, try_except. rewrite Hnc.
    unfold invoke. rewrite Hfail. reflexivity.
  - intros c h'. destruct (translate_chunk_spec env c h') as (ev & out & E & _).
    eauto.
  - intros chunks h'. destruct (translate_chunks_spec env chunks h') as (ev & outs & E & L & _).
    eauto.
Qed.

Lemma chunk_failure_marked_and_loop_continues_witness :
  pystr_eqb (chunk_type (mkChunk (lit "Hello") (lit "paragraph"))) (lit "code") = false
  /\ llm env_down [] (RTranslate (lit "Hello")) = None
  /\ translate_chunk env_down (mkChunk (lit "Hello") (lit "paragraph")) []
     = (Ret (failure_prefix ++ lit "Hello"), [ECall (RTranslate (lit "Hello")) None]).
Proof.
  split; [reflexivity|]. split; [reflexivity|].
  apply (chunk_failure_marked_and_loop_continues env_down (mkChunk (lit "Hello") (lit "paragraph")) []);
    reflexivity.
Defined.

(** C5 as stated fails for code chunks: when the model call for the
    comment line of the code chunk "# c" raises, [translate_chunk] returns
    the line unchanged, with no failure marker. *)
Lemma code_chunk_failure_unmarked :
  llm env_down [] (RTranslate (lit "# c")) = None
  /\ translate_chunk env_down (mkChunk (lit "# c") (lit "code")) []
     = (Ret (lit "# c"), [ECall (RTranslate (lit "# c")) None])
  /\ ~ (exists rest, lit "# c" = failure_prefix ++ rest).
Proof.
  split; [reflexivity|]. split; [reflexivity|].
  intros [rest E]. discriminate E.
Qed.

(** ** Runs of [translate_content] *)

Lemma translate_content_shape env content :
  exists os ev outs ts cr rest res,
    translate_chunks env (chunk_text env content) [ESummaryOriginal content os]
      = (Ret outs, [ESummaryOriginal content os] ++ ev)
    /\ Forall is_translate_call ev
    /\ length outs = length (chunk_text env content)
    /\ translate_content env content []
       = (Ret res, [ESummaryOriginal content os] ++ ev
                   ++ [ESummaryTranslated (_merge_translated_chunks outs) ts; ECompare os ts cr]
                   ++ rest)
    /\ retranslation_branch content os (_merge_translated_chunks outs) ts cr
         (length (chunk_text env content)) rest res.
Proof.
  set (os := match summarize_original env [] content with Some s => s | None => empty_summary end).
  destruct (translate_chunks_spec env (chunk_text env content) [ESummaryOriginal content os])
    as (ev & outs & E & L & C).
  unfold translate_content, bind at 1.
  change (generate_original_summary env content []) with
    (Ret os, [ESummaryOriginal content os]).
  cbv beta iota.
  unfold bind at 1. rewrite E.
  cbv beta iota.
  unfold bind at 1, generate_translated_summary.
  cbv beta iota.
  unfold bind at 1, compare_summaries.
  cbv beta iota.
  set (merged := _merge_translated_chunks outs).
  set (h0 := [ESummaryOriginal content os] ++ ev).
  set (ts := match summarize_translated env h0 merged with Some s => s | None => empty_summary end).
  set (h1 := h0 ++ [ESummaryTranslated merged ts]).
  set (cr := match judge env h1 os ts with
             | Some r => mkComparison (clamp_score (completeness_score r)) (missing_content r) (suggestions r)
             | None => comparison_fallback env end).
  exists os, ev, outs, ts, cr.
  destruct (needs_retranslation cr) eqn:Hn.
  - unfold _retranslate_with_focus, try_except, invoke, bind, ret,
      generate_translated_summary, compare_summaries.
    cbv beta iota zeta.
    match goal with |- context [llm env ?hh ?rr] => destruct (llm env hh rr) as [raw|] end.
    + cbv beta iota. destruct (truthy (strip raw)) eqn:Ht.
      * do 2 eexists; split; [|split; [|split; [|split]]]; try eassumption.
        -- unfold h1, h0. rewrite <- !app_assoc. reflexivity.
        -- apply RB_replaced; assumption.
      * do 2 eexists; split; [|split; [|split; [|split]]]; try eassumption.
        -- unfold h1, h0. rewrite <- !app_assoc. reflexivity.
        -- apply RB_empty; assumption.
    + do 2 eexists; split; [|split; [|split; [|split]]]; try eassumption.
      -- unfold h1, h0. rewrite <- !app_assoc. reflexivity.
      -- apply RB_failed; assumption.
  - unfold ret.
    do 2 eexists; split; [|split; [|split; [|split]]]; try eassumption.
    -- unfold h1, h0. rewrite <- !app_assoc, app_nil_r. reflexivity.
    -- apply RB_skipped; assumption.
Qed.

Lemma pystr_eqb_spec (a b : pystr) : pystr_eqb a b = true <-> a = b.
Proof.
  unfold pystr_eqb. destruct (list_eq_dec N.eq_dec a b); split; congruence.
Qed.

Lemma needs_retranslation_spec (cr : ComparisonResult) :
  needs_retranslation cr = true
  <-> (completeness_score cr < 8)%Z /\ missing_content cr <> sentinel_none.
Proof.
  unfold needs_retranslation. rewrite andb_true_iff, Z.ltb_lt, negb_true_iff.
  split.
  - intros [H1 H2]; split; [exact H1|]. intros Heq. apply pystr_eqb_spec in Heq. congruence.
  - intros [H1 H2]; split; [exact H1|].
    destruct (pystr_eqb _ _) eqn:E; [apply pystr_eqb_spec in E; contradiction | reflexivity].
Qed.

Lemma translate_calls_filter (f : event -> bool) (ev : log) :
  (forall c r, f (ECall (RTranslate c) r) = false) ->
  Forall is_translate_call ev -> filter f ev = [].
Proof.
  intros Hf; induction 1 as [|e ev (c & r & ->) _ IH]; [reflexivity|].
  simpl. rewrite Hf. exact IH.
Qed.

Lemma translate_calls_first_comparison (ev l : log) :
  Forall is_translate_call ev -> first_comparison (ev ++ l) = first_comparison l.
Proof. induction 1 as [|e ev (c & r & ->) _ IH]; [reflexivity|]. exact IH. Qed.

Lemma translate_calls_last_translated_summary (ev : log) acc :
  Forall is_translate_call ev ->
  fold_left (fun acc e => match e with
                          | ESummaryTranslated c s => Some (c, s)
                          | _ => acc end) ev acc = acc.
Proof. intros Hev; revert acc; induction Hev as [|e ev (c & r & ->) _ IH]; intros a0; [reflexivity|]. apply IH. Qed.

Lemma translate_calls_last_comparison (ev : log) acc :
  Forall is_translate_call ev ->
  fold_left (fun acc e => match e with
                          | ECompare o t r => Some (o, t, r)
                          | _ => acc end) ev acc = acc.
Proof. intros Hev; revert acc; induction Hev as [|e ev (c & r & ->) _ IH]; intros a0; [reflexivity|]. apply IH. Qed.

Lemma translate_calls_no_retranslation (ev : log) o m r :
  Forall is_translate_call ev -> ~ In (ECall (RRetranslate o m) r) ev.
Proof.
  intros H Hin. rewrite Forall_forall in H. destruct (H _ Hin) as (c & r' & E). discriminate.
Qed.

(** Counting on the whole log of a run. *)
Lemma run_log_counts (f : event -> bool) content os ev merged ts cr rest :
  (forall c r, f (ECall (RTranslate c) r) = false) ->
  Forall is_translate_call ev ->
  length (filter f ([ESummaryOriginal content os] ++ ev
                    ++ [ESummaryTranslated merged ts; ECompare os ts cr] ++ rest))
  = (length (filter f [ESummaryOriginal content os; ESummaryTranslated merged ts; ECompare os ts cr])
     + length (filter f rest))%nat.
Proof.
  intros Hf Hev.
  rewrite !filter_app, (translate_calls_filter f ev Hf Hev), !length_app.
  simpl. destruct (f (ESummaryOriginal content os)), (f (ESummaryTranslated merged ts)),
           (f (ECompare os ts cr)); simpl; lia.
Qed.

(** ** Claims on [translate_content] *)

(** C1: the focused retranslation is attempted exactly when the first
    comparison has a score below 8 and a [missing_content] other than "无";
    then exactly one retranslation call is made, over the whole original
    document and with that [missing_content]; otherwise none, in particular
    never when [missing_content] is "无". *)
Theorem retranslation_iff_needed (env : Env) (content : pystr) :
  exists cr,
    first_comparison (snd (translate_content env content [])) = Some cr
    /\ (count_retranslation_calls (snd (translate_content env content [])) <= 1)%nat
    /\ (count_retranslation_calls (snd (translate_content env content [])) = 1%nat
        <-> (completeness_score cr < 8)%Z /\ missing_content cr <> sentinel_none)
    /\ (missing_content cr = sentinel_none ->
        count_retranslation_calls (snd (translate_content env content [])) = 0%nat)
    /\ (forall o m r, In (ECall (RRetranslate o m) r) (snd (translate_content env content [])) ->
        o = content /\ m = missing_content cr).
Proof.
  destruct (translate_content_shape env content)
    as (os & ev & outs & ts & cr & rest & res & E & Hev & L & R & B).
  rewrite R. cbn [snd]. exists cr.
  assert (Hcount : count_retranslation_calls
            ([ESummaryOriginal content os] ++ ev
             ++ [ESummaryTranslated (_merge_translated_chunks outs) ts; ECompare os ts cr] ++ rest)
          = if needs_retranslation cr then 1%nat else 0%nat).
  { unfold count_retranslation_calls.
    rewrite run_log_counts by (reflexivity || assumption).
    inversion B; subst; simpl; rewrite ?H; reflexivity. }
  assert (Hin : forall o m r,
            In (ECall (RRetranslate o m) r)
              ([ESummaryOriginal content os] ++ ev
               ++ [ESummaryTranslated (_merge_translated_chunks outs) ts; ECompare os ts cr] ++ rest) ->
            o = content /\ m = missing_content cr).
  { intros o m r Hi. simpl in Hi. destruct Hi as [Hi|Hi]; [discriminate|].
    apply in_app_or in Hi as [Hi|Hi].
    - exfalso. eapply translate_calls_no_retranslation; eauto.
    - destruct Hi as [Hi|[Hi|Hi]]; try discriminate.
      inversion B; subst; simpl in Hi;
        repeat (destruct Hi as [Hi|Hi]; [inversion Hi; subst; auto|]); contradiction. }
  split; [|split; [|split; [|split]]].
  - simpl. rewrite translate_calls_first_comparison by assumption. reflexivity.
  - rewrite Hcount. destruct (needs_retranslation cr); auto.
  - rewrite Hcount, <- needs_retranslation_spec.
    destruct (needs_retranslation cr); split; congruence.
  - intros Hm. rewrite Hcount.
    destruct (needs_retranslation cr) eqn:Hn; [|reflexivity].
    apply needs_retranslation_spec in Hn as [_ Hn]. contradiction.
  - exact Hin.
Qed.

(** C6: when the focused-retranslation call raises, [translate_content]
    still returns normally, with the merged translation of the chunk loop
    and the stats of the first summary and comparison; the failed call is
    the last thing the run does, so nothing is recomputed. *)
Theorem retranslation_failure_keeps_merged (env : Env) (content o m : pystr)
  (Hfail : In (ECall (RRetranslate o m) None) (snd (translate_content env content []))) :
  exists os outs st pre,
    fst (translate_chunks env (chunk_text env content) [ESummaryOriginal content os]) = Ret outs
    /\ translate_content env content []
       = (Ret (_merge_translated_chunks outs, st),
          pre ++ [ESummaryTranslated (_merge_translated_chunks outs) (translated_summary st);
                  ECompare os (translated_summary st) (comparison_result st);
                  ECall (RRetranslate o m) None])
    /\ original_summary st = os
    /\ count_translated_summaries (snd (translate_content env content [])) = 1%nat
    /\ count_comparisons (snd (translate_content env content [])) = 1%nat.
Proof.
  destruct (translate_content_shape env content)
    as (os & ev & outs & ts & cr & rest & res & E & Hev & L & R & B).
  rewrite R in Hfail |- *. cbn [snd] in Hfail |- *.
  simpl in Hfail. destruct Hfail as [Hf|Hf]; [discriminate|].
  apply in_app_or in Hf as [Hf|Hf].
  { exfalso. eapply translate_calls_no_retranslation; eauto. }
  destruct Hf as [Hf|[Hf|Hf]]; try discriminate.
  inversion B; subst; simpl in Hf.
  - contradiction.
  - destruct Hf as [Hf|[]]. injection Hf as Ho Hm. subst o m.
    exists os, outs, (make_stats os ts cr (length (chunk_text env content))),
      ([ESummaryOriginal content os] ++ ev).
    split; [rewrite E; reflexivity|]. split; [|split; [reflexivity|split]].
    + rewrite <- !app_assoc. reflexivity.
    + unfold count_translated_summaries. rewrite run_log_counts by (reflexivity || assumption).
      reflexivity.
    + unfold count_comparisons. rewrite run_log_counts by (reflexivity || assumption).
      reflexivity.
  - destruct Hf as [Hf|[]]. discriminate.
  - destruct Hf as [Hf|[Hf|[Hf|[]]]]; discriminate.
Qed.

(** C7 (as amended): when the focused-retranslation call returns a text
    that is non-empty after the output parser's [strip], that text replaces
    the merged translation wholesale and the translated summary and the
    comparison are recomputed once, after which the run ends: two
    translated summaries, two comparisons and one retranslation call in all.
    When it returns a text that is empty after [strip], the merged
    translation is kept and nothing is recomputed. *)
Theorem retranslation_success_replaces (env : Env) (content o m raw : pystr)
  (Hok : In (ECall (RRetranslate o m) (Some raw)) (snd (translate_content env content []))) :
  (truthy (strip raw) = true ->
   exists st pre,
     translate_content env content []
     = (Ret (strip raw, st),
        pre ++ [ECall (RRetranslate o m) (Some raw);
                ESummaryTranslated (strip raw) (translated_summary st);
                ECompare (original_summary st) (translated_summary st) (comparison_result st)])
     /\ count_translated_summaries (snd (translate_content env content [])) = 2%nat
     /\ count_comparisons (snd (translate_content env content [])) = 2%nat
     /\ count_retranslation_calls (snd (translate_content env content [])) = 1%nat)
  /\ (truthy (strip raw) = false ->
   exists os outs st pre,
     fst (translate_chunks env (chunk_text env content) [ESummaryOriginal content os]) = Ret outs
     /\ translate_content env content []
        = (Ret (_merge_translated_chunks outs, st), pre ++ [ECall (RRetranslate o m) (Some raw)])
     /\ count_translated_summaries (snd (translate_content env content [])) = 1%nat
     /\ count_comparisons (snd (translate_content env content [])) = 1%nat).
Proof.
  destruct (translate_content_shape env content)
    as (os & ev & outs & ts & cr & rest & res & E & Hev & L & R & B).
  rewrite R in Hok |- *. cbn [snd] in Hok |- *.
  simpl in Hok. destruct Hok as [Hf|Hf]; [discriminate|].
  apply in_app_or in Hf as [Hf|Hf].
  { exfalso. eapply translate_calls_no_retranslation; eauto. }
  destruct Hf as [Hf|[Hf|Hf]]; try discriminate.
  unfold count_translated_summaries, count_comparisons, count_retranslation_calls.
  rewrite !run_log_counts by (reflexivity || assumption).
  inversion B as [Hn| Hn | raw' Hn Ht | raw' ts' cr' Hn Ht]; subst; simpl in Hf.
  - contradiction.
  - destruct Hf as [Hf|[]]. discriminate.
  - destruct Hf as [Hf|[]]. injection Hf as Ho Hm Hr. subst o m raw.
    split; intros Ht'; [congruence|].
    exists os, outs, (make_stats os ts cr (length (chunk_text env content))),
      ([ESummaryOriginal content os] ++ ev
       ++ [ESummaryTranslated (_merge_translated_chunks outs) ts; ECompare os ts cr]).
    split; [rewrite E; reflexivity|]. split; [|split; reflexivity].
    rewrite <- !app_assoc. reflexivity.
  - destruct Hf as [Hf|[Hf|[Hf|[]]]]; try discriminate. injection Hf as Ho Hm Hr. subst o m raw.
    split; intros Ht'; [|congruence].
    exists (make_stats os ts' cr' (length (chunk_text env content))),
      ([ESummaryOriginal content os] ++ ev
       ++ [ESummaryTranslated (_merge_translated_chunks outs) ts; ECompare os ts cr]).
    split; [|split; [|split]]; try reflexivity.
    rewrite <- !app_assoc. reflexivity.
Qed.

(** C8: the stats returned by [translate_content] are consistent: the
    score field is the score of the comparison field, [chunk_count] is the
    number of chunks of the chunker, the original summary is the one
    generated first, and the translated summary and comparison are those of
    the last summary and comparison of the run, the summary being that of
    the returned translation (after a retranslation, the recomputed ones). *)
Theorem stats_consistent (env : Env) (content : pystr) :
  exists out st lg,
    translate_content env content [] = (Ret (out, st), lg)
    /\ stats_completeness_score st = completeness_score (comparison_result st)
    /\ chunk_count st = length (chunk_text env content)
    /\ hd_error lg = Some (ESummaryOriginal content (original_summary st))
    /\ last_translated_summary lg = Some (out, translated_summary st)
    /\ last_comparison lg = Some (original_summary st, translated_summary st, comparison_result st).
Proof.
  destruct (translate_content_shape env content)
    as (os & ev & outs & ts & cr & rest & res & E & Hev & L & R & B).
  unfold last_translated_summary, last_comparison.
  inversion B; subst; do 3 eexists; (split; [exact R|]);
    simpl; rewrite !fold_left_app; simpl;
    rewrite ?translate_calls_last_translated_summary, ?translate_calls_last_comparison by assumption;
    repeat split; reflexivity.
Qed.

Lemma retranslation_failure_keeps_merged_witness :
  In (ECall (RRetranslate (lit "a") (lit "x")) None)
     (snd (translate_content (env_retranslating None) (lit "a") []))
  /\ exists os outs st pre,
    fst (translate_chunks (env_retranslating None)
           (chunk_text (env_retranslating None) (lit "a")) [ESummaryOriginal (lit "a") os]) = Ret outs
    /\ translate_content (env_retranslating None) (lit "a") []
       = (Ret (_merge_translated_chunks outs, st),
          pre ++ [ESummaryTranslated (_merge_translated_chunks outs) (translated_summary st);
                  ECompare os (translated_summary st) (comparison_result st);
                  ECall (RRetranslate (lit "a") (lit "x")) None])
    /\ original_summary st = os
    /\ count_translated_summaries (snd (translate_content (env_retranslating None) (lit "a") [])) = 1%nat
    /\ count_comparisons (snd (translate_content (env_retranslating None) (lit "a") [])) = 1%nat.
Proof.
  assert (Hin : In (ECall (RRetranslate (lit "a") (lit "x")) None)
                   (snd (translate_content (env_retranslating None) (lit "a") []))).
  { vm_compute. repeat (first [left; reflexivity | right]). }
  split; [exact Hin|].
  exact (retranslation_failure_keeps_merged (env_retranslating None) (lit "a") (lit "a") (lit "x") Hin).
Defined.

Lemma retranslation_success_replaces_witness :
  In (ECall (RRetranslate (lit "a") (lit "x")) (Some (lit "R")))
     (snd (translate_content env_echo (lit "a") []))
  /\ truthy (strip (lit "R")) = true
  /\ exists st pre,
     translate_content env_echo (lit "a") []
     = (Ret (strip (lit "R"), st),
        pre ++ [ECall (RRetranslate (lit "a") (lit "x")) (Some (lit "R"));
                ESummaryTranslated (strip (lit "R")) (translated_summary st);
                ECompare (original_summary st) (translated_summary st) (comparison_result st)])
     /\ count_translated_summaries (snd (translate_content env_echo (lit "a") [])) = 2%nat
     /\ count_comparisons (snd (translate_content env_echo (lit "a") [])) = 2%nat
     /\ count_retranslation_calls (snd (translate_content env_echo (lit "a") [])) = 1%nat.
Proof.
  assert (Hin : In (ECall (RRetranslate (lit "a") (lit "x")) (Some (lit "R")))
                   (snd (translate_content env_echo (lit "a") []))).
  { vm_compute. repeat (first [left; reflexivity | right]). }
  split; [exact Hin|]. split; [reflexivity|].
  apply (proj1 (retranslation_success_replaces env_echo (lit "a") (lit "a") (lit "x") (lit "R") Hin)).
  reflexivity.
Defined.

(** C7 as stated fails: a retranslation call that returns without raising
    but with a blank text (here " ") does not replace the merged
    translation, and nothing is recomputed. *)
Lemma retranslation_blank_output_ignored :
  In (ECall (RRetranslate (lit "a") (lit "x")) (Some (lit " ")))
     (snd (translate_content (env_retranslating (Some (lit " "))) (lit "a") []))
  /\ fst (translate_content (env_retranslating (Some (lit " "))) (lit "a") [])
     = Ret (lit "Ta", make_stats (mkSummary (lit "a") []) (mkSummary (lit "Ta") [])
                        (mkComparison 5 (lit "x") []) 1)
  /\ count_translated_summaries
       (snd (translate_content (env_retranslating (Some (lit " "))) (lit "a") [])) = 1%nat.
Proof.
  split; [|split; reflexivity].
  vm_compute. repeat (first [left; reflexivity | right]).
Qed.

(** ** Merging *)

Lemma lstrip_head (s : pystr) :
  lstrip s = [] \/ exists c r, lstrip s = c :: r /\ isspace c = false.
Proof.
  induction s as [|c r IH]; simpl; [auto|].
  destruct (isspace c) eqn:E; [exact IH|]. right; eauto.
Qed.

Lemma strip_last (s : pystr) :
  strip s = [] \/ exists p c, strip s = p ++ [c] /\ isspace c = false.
Proof.
  unfold strip, rstrip.
  destruct (lstrip_head (rev (lstrip s))) as [E|(c & r & E & Hc)]; rewrite E; [auto|].
  right. exists (rev r), c. split; [reflexivity | exact Hc].
Qed.

Lemma strip_not_ends_newline (s p : pystr) : strip s <> p ++ [newline].
Proof.
  intros E. destruct (strip_last s) as [E'|(p' & c & E' & Hc)]; rewrite E' in E.
  - destruct p; discriminate.
  - apply app_inj_tail in E as [_ ->]. discriminate.
Qed.

Lemma split_units_cons (c : N) (t : pystr) :
  ~ (c = newline /\ hd_error t = Some newline) ->
  split_units (c :: t) = match split_units t with
                         | p :: ps => (c :: p) :: ps
                         | [] => [[c]]
                         end.
Proof.
  intros H. simpl. destruct (c =? newline) eqn:Ec; [|reflexivity].
  destruct t as [|d t']; [reflexivity|].
  destruct (d =? newline) eqn:Ed; [|reflexivity].
  apply N.eqb_eq in Ec, Ed. subst. exfalso. apply H. auto.
Qed.

Lemma has_blank_cons (c d : N) (t : pystr) :
  has_blank (c :: d :: t) = false ->
  ~ (c = newline /\ d = newline) /\ has_blank (d :: t) = false.
Proof.
  simpl. intros H. apply orb_false_iff in H as [H1 H2]. split; [|exact H2].
  intros [-> ->]. discriminate.
Qed.

Lemma split_units_no_blank (x : pystr) : has_blank x = false -> split_units x = [x].
Proof.
  induction x as [|c x IH]; intros Hb; [reflexivity|].
  destruct x as [|d x].
  - simpl. destruct (c =? newline); reflexivity.
  - apply has_blank_cons in Hb as [Hcd Hb].
    rewrite split_units_cons by (simpl; intros [H1 H2]; injection H2; tauto).
    rewrite (IH Hb). reflexivity.
Qed.

Lemma split_units_app (x rest : pystr) :
  has_blank x = false -> (forall p, x <> p ++ [newline]) ->
  split_units (x ++ newline :: newline :: rest) = x :: split_units rest.
Proof.
  induction x as [|c x IH]; intros Hb He; [reflexivity|].
  simpl app. rewrite split_units_cons.
  - rewrite IH; [reflexivity| |].
    + destruct x as [|d x]; [reflexivity|]. apply has_blank_cons in Hb as [_ Hb]. exact Hb.
    + intros p Ep. apply (He (c :: p)). rewrite Ep. reflexivity.
  - intros [Hc Hd]. destruct x as [|d x].
    + subst c. apply (He []). reflexivity.
    + simpl in Hd. injection Hd as Hd. apply has_blank_cons in Hb as [Hcd _]. tauto.
Qed.

Lemma split_units_join (xs : list pystr) :
  xs <> [] ->
  Forall (fun x => has_blank x = false /\ forall p, x <> p ++ [newline]) xs ->
  split_units (join [newline; newline] xs) = xs.
Proof.
  intros Hne H. induction H as [|x xs [Hb He] Hxs IH]; [contradiction|].
  destruct xs as [|y ys].
  - apply split_units_no_blank, Hb.
  - change (join [newline; newline] (x :: y :: ys))
      with (x ++ [newline; newline] ++ join [newline; newline] (y :: ys)).
    change ([newline; newline] ++ ?r) with (newline :: newline :: r).
    rewrite split_units_app by assumption.
    rewrite IH by discriminate. reflexivity.
Qed.

(** C2 (as amended): for a non-empty list of translated chunks, each
    non-blank after [strip] and without a blank line inside its stripped
    text, splitting the merged text on "\n\n" gives back exactly the
    stripped chunks, one unit per input chunk, in the original order. *)
Theorem merge_units_one_per_chunk (translated_chunks : list pystr)
  (Hne : translated_chunks <> [])
  (Hok : Forall (fun c => truthy (strip c) = true /\ has_blank (strip c) = false)
           translated_chunks) :
  split_units (_merge_translated_chunks translated_chunks) = map strip translated_chunks.
Proof.
  unfold _merge_translated_chunks.
  assert (Hf : filter (fun chunk => truthy (strip chunk)) translated_chunks = translated_chunks).
  { clear Hne. induction Hok as [|c cs [Ht _] _ IH]; [reflexivity|].
    simpl. rewrite Ht, IH. reflexivity. }
  rewrite Hf. apply split_units_join.
  - destruct translated_chunks; [contradiction | discriminate].
  - apply Forall_map. eapply Forall_impl; [|exact Hok].
    intros c [_ Hb]. split; [exact Hb|]. intros p. apply strip_not_ends_newline.
Qed.

Lemma merge_units_one_per_chunk_witness :
  [lit " a "; lit "b"] <> []
  /\ Forall (fun c => truthy (strip c) = true /\ has_blank (strip c) = false) [lit " a "; lit "b"]
  /\ split_units (_merge_translated_chunks [lit " a "; lit "b"]) = map strip [lit " a "; lit "b"].
Proof.
  assert (Hne : [lit " a "; lit "b"] <> []) by discriminate.
  assert (Hok : Forall (fun c => truthy (strip c) = true /\ has_blank (strip c) = false)
                  [lit " a "; lit "b"]) by (repeat constructor).
  split; [exact Hne|]. split; [exact Hok|].
  exact (merge_units_one_per_chunk [lit " a "; lit "b"] Hne Hok).
Defined.

(** C2 as stated fails: a chunk that is blank after [strip] is dropped by
    the merge, so three chunks give two units. *)
Lemma merge_drops_blank_chunk :
  split_units (_merge_translated_chunks [lit "a"; lit " "; lit "b"]) = [lit "a"; lit "b"].
Proof. reflexivity. Qed.

(** ** Configuration *)

Lemma opt_pystr_eqb_placeholder (v : option pystr) :
  opt_pystr_eqb v (Some api_key_placeholder) = true <-> v = Some api_key_placeholder.
Proof.
  destruct v as [x|]; simpl; [|split; discriminate].
  rewrite pystr_eqb_spec. split; congruence.
Qed.

(** C10 (as amended): the precedence of [get_openai_config].  API key: a
    non-empty argument; else a non-empty, non-placeholder [api_key] of the
    [[openai]] section; else [OPENAI_API_KEY].  Base URL: a non-empty
    argument; else, when the [[openai]] section exists, its non-empty
    [base_url], or "https://api.openai.com/v1" when it has no [base_url]
    key (the environment is then not read); else (no section, or an empty
    [base_url]) [OPENAI_BASE_URL], defaulting to
    "https://api.openai.com/v1". *)
Theorem openai_config_precedence (cfg : ConfigFile) (environ : pystr -> option pystr)
  (api_key base_url : option pystr) :
  (opt_truthy api_key = true ->
   fst (get_openai_config cfg environ api_key base_url) = api_key)
  /\ (forall sec, opt_truthy api_key = false -> openai_section cfg = Some sec ->
      opt_truthy (ini_api_key sec) = true -> ini_api_key sec <> Some api_key_placeholder ->
      fst (get_openai_config cfg environ api_key base_url) = ini_api_key sec)
  /\ (opt_truthy api_key = false ->
      (openai_section cfg = None
       \/ exists sec, openai_section cfg = Some sec
                      /\ (opt_truthy (ini_api_key sec) = false
                          \/ ini_api_key sec = Some api_key_placeholder)) ->
      fst (get_openai_config cfg environ api_key base_url) = environ (lit "OPENAI_API_KEY"))
  /\ (opt_truthy base_url = true ->
      snd (get_openai_config cfg environ api_key base_url) = base_url)
  /\ (forall sec v, opt_truthy base_url = false -> openai_section cfg = Some sec ->
      ini_base_url sec = Some v -> truthy v = true ->
      snd (get_openai_config cfg environ api_key base_url) = Some v)
  /\ (forall sec, opt_truthy base_url = false -> openai_section cfg = Some sec ->
      ini_base_url sec = None ->
      snd (get_openai_config cfg environ api_key base_url) = Some default_base_url)
  /\ (opt_truthy base_url = false ->
      (openai_section cfg = None
       \/ exists sec, openai_section cfg = Some sec /\ ini_base_url sec = Some []) ->
      snd (get_openai_config cfg environ api_key base_url)
      = Some (getenv_default environ (lit "OPENAI_BASE_URL") default_base_url)).
Proof.
  unfold get_openai_config; cbn [fst snd].
  split; [|split; [|split; [|split; [|split; [|split]]]]].
  - intros H. rewrite H. simpl. rewrite H. reflexivity.
  - intros sec Ha Hs Hk Hp. rewrite Ha, Hs. simpl.
    destruct (opt_pystr_eqb _ _) eqn:E; [apply opt_pystr_eqb_placeholder in E; contradiction|].
    rewrite Hk. reflexivity.
  - intros Ha Hcase. rewrite Ha. simpl.
    destruct Hcase as [Hs|(sec & Hs & [Hk|Hk])]; rewrite Hs.
    + rewrite Ha. reflexivity.
    + destruct (opt_pystr_eqb _ _); [reflexivity|]. rewrite Hk. reflexivity.
    + rewrite Hk. unfold opt_pystr_eqb. rewrite (proj2 (pystr_eqb_spec _ _) eq_refl).
      reflexivity.
  - intros H. rewrite H. simpl. rewrite H. reflexivity.
  - intros sec v Hb Hs Hv Ht. rewrite Hb, Hs, Hv. simpl. rewrite Ht. reflexivity.
  - intros sec Hb Hs Hv. rewrite Hb, Hs, Hv. reflexivity.
  - intros Hb Hcase. rewrite Hb. simpl.
    destruct Hcase as [Hs|(sec & Hs & Hv)]; rewrite Hs; [rewrite Hb|rewrite Hv]; reflexivity.
Qed.

(** C10 as stated fails: with an [[openai]] section that has no
    [base_url] key and [OPENAI_BASE_URL] set, the environment variable is
    ignored and the built-in default is returned. *)
Lemma openai_config_section_shadows_env_base_url :
  snd (get_openai_config (mkConfigFile (Some (mkOpenaiSection (Some (lit "sk-file")) None)))
         (fun name => if pystr_eqb name (lit "OPENAI_BASE_URL")
                      then Some (lit "https://proxy.example/v1") else None)
         None None)
  = Some default_base_url.
Proof. reflexivity. Qed.

(** ** More of [ConfigManager] *)

(** X1: precedence of [get_qwen_config]: a non-empty [api_key] argument;
    else a non-empty, non-placeholder [api_key] of the [[qwen]] section;
    else [DASHSCOPE_API_KEY]. *)
Theorem qwen_config_precedence (cfg : Config) (environ : pystr -> option pystr)
  (api_key : option pystr) :
  (opt_truthy api_key = true -> get_qwen_config cfg environ api_key = api_key)
  /\ (forall v, opt_truthy api_key = false -> qwen_section cfg = Some v ->
      opt_truthy v = true -> v <> Some qwen_key_placeholder ->
      get_qwen_config cfg environ api_key = v)
  /\ (opt_truthy api_key = false ->
      (qwen_section cfg = None
       \/ exists v, qwen_section cfg = Some v
                    /\ (opt_truthy v = false \/ v = Some qwen_key_placeholder)) ->
      get_qwen_config cfg environ api_key = environ (lit "DASHSCOPE_API_KEY")).
Proof.
  unfold get_qwen_config. split; [|split].
  - intros H. rewrite H. simpl. rewrite H. reflexivity.
  - intros v Ha Hs Hv Hp. rewrite Ha, Hs. simpl.
    destruct (opt_pystr_eqb v _) eqn:E.
    + exfalso. apply Hp. destruct v as [x|]; [|discriminate].
      simpl in E. apply pystr_eqb_spec in E. congruence.
    + rewrite Hv. reflexivity.
  - intros Ha Hcase. rewrite Ha. simpl.
    destruct Hcase as [Hs|(v & Hs & [Hv|Hv])]; rewrite Hs.
    + rewrite Ha. reflexivity.
    + destruct (opt_pystr_eqb v _); [reflexivity|]. rewrite Hv. reflexivity.
    + subst v. unfold opt_pystr_eqb. rewrite (proj2 (pystr_eqb_spec _ _) eq_refl).
      reflexivity.
Qed.

(** The value [config.get('default', key, fallback=d)] gives. *)
Definition default_or (cfg : Config) (key d : pystr) : pystr :=
  match default_section cfg with
  | Some sec => match sec key with Some x => x | None => d end
  | None => d
  end.

(** X2: [get_default_config] always has the four keys model_name,
    provider, translator_id and max_tokens, in that order.  model_name and
    provider come from the environment ([MODEL_NAME], [MODEL_PROVIDER]) when
    set, else from the [[default]] section, else the built-in
    "gpt-3.5-turbo" and "auto"; translator_id and max_tokens come from the
    section or the built-ins "FILL_YOUR_GITHUB_ID_HERE" and "800", never from
    the environment. *)
Theorem default_config_sources (cfg : Config) (environ : pystr -> option pystr) :
  map fst (get_default_config cfg environ) = map fst builtin_defaults
  /\ dict_get (get_default_config cfg environ) (lit "model_name")
     = Some (getenv_default environ (lit "MODEL_NAME")
               (default_or cfg (lit "model_name") (lit "gpt-3.5-turbo")))
  /\ dict_get (get_default_config cfg environ) (lit "provider")
     = Some (getenv_default environ (lit "MODEL_PROVIDER")
               (default_or cfg (lit "provider") (lit "auto")))
  /\ dict_get (get_default_config cfg environ) (lit "translator_id")
     = Some (default_or cfg (lit "translator_id") (lit "FILL_YOUR_GITHUB_ID_HERE"))
  /\ dict_get (get_default_config cfg environ) (lit "max_tokens")
     = Some (default_or cfg (lit "max_tokens") (lit "800")).
Proof.
  unfold get_default_config, default_or.
  destruct (default_section cfg) as [sec|]; vm_compute; repeat split.
Qed.

Lemma lower_char_idem (c : N) : flat_map lower_char (lower_char c) = lower_char c.
Proof.
  destruct ((65 <=? c) && (c <=? 90)) eqn:E1.
  - assert (Hc : lower_char c = [c + 32]) by (unfold lower_char; rewrite E1; reflexivity).
    rewrite Hc. apply andb_prop in E1 as [E1 E2]. apply N.leb_le in E1, E2.
    simpl. rewrite app_nil_r. unfold lower_char.
    replace ((65 <=? c + 32) && (c + 32 <=? 90)) with false
      by (symmetry; apply andb_false_iff; right; apply N.leb_gt; lia).
    replace (c + 32 =? 8490) with false by (symmetry; apply N.eqb_neq; lia).
    replace (c + 32 =? 304) with false by (symmetry; apply N.eqb_neq; lia).
    reflexivity.
  - destruct (c =? 8490) eqn:E2.
    + assert (Hc : lower_char c = [107]) by (unfold lower_char; rewrite E1, E2; reflexivity).
      rewrite Hc. reflexivity.
    + destruct (c =? 304) eqn:E3.
      * assert (Hc : lower_char c = [105; 775])
          by (unfold lower_char; rewrite E1, E2, E3; reflexivity).
        rewrite Hc. reflexivity.
      * assert (Hc : lower_char c = [c]) by (unfold lower_char; rewrite E1, E2, E3; reflexivity).
        rewrite Hc. simpl. rewrite app_nil_r. exact Hc.
Qed.

Lemma lower_idem (s : pystr) : lower (lower s) = lower s.
Proof.
  unfold lower. induction s as [|c s IH]; [reflexivity|].
  simpl. rewrite flat_map_app, lower_char_idem, IH. reflexivity.
Qed.

(** X3: [validate_config] reads the provider name case-insensitively;
    "auto" holds exactly when "openai" (without a base URL) or "qwen" holds;
    any other provider name is rejected. *)
Theorem validate_config_dispatch (cfg : Config) (environ : pystr -> option pystr)
  (provider : pystr) (ok ob qk : option pystr) :
  validate_config cfg environ provider ok ob qk
    = validate_config cfg environ (lower provider) ok ob qk
  /\ validate_config cfg environ (lit "auto") ok ob qk
     = validate_config cfg environ (lit "openai") ok None qk
       || validate_config cfg environ (lit "qwen") ok ob qk
  /\ (lower provider <> lit "openai" -> lower provider <> lit "qwen" ->
      lower provider <> lit "auto" -> validate_config cfg environ provider ok ob qk = false).
Proof.
  split; [|split].
  - unfold validate_config. rewrite lower_idem. reflexivity.
  - reflexivity.
  - intros H1 H2 H3. unfold validate_config.
    destruct (pystr_eqb (lower provider) (lit "openai")) eqn:E1;
      [apply pystr_eqb_spec in E1; contradiction|].
    destruct (pystr_eqb (lower provider) (lit "qwen")) eqn:E2;
      [apply pystr_eqb_spec in E2; contradiction|].
    destruct (pystr_eqb (lower provider) (lit "auto")) eqn:E3;
      [apply pystr_eqb_spec in E3; contradiction|].
    reflexivity.
Qed.

(** ** More of [SmartTranslator] *)

(** X5: [translate_with_context] never raises.  With an empty context it
    is the plain translation of the text as a paragraph chunk; with a
    context, a successful call returns the model's stripped text, and a
    failed call falls back to the plain translation, made after it. *)
Theorem translate_with_context_fallback (env : Env) (c context : pystr) (h : log) :
  (exists ev out, translate_with_context env c context h = (Ret out, h ++ ev))
  /\ (truthy context = false ->
      translate_with_context env c context h = translate_chunk env (mkChunk c (lit "paragraph")) h)
  /\ (forall raw, truthy context = true -> llm env h (RTranslateWithContext c context) = Some raw ->
      translate_with_context env c context h
      = (Ret (strip raw), h ++ [ECall (RTranslateWithContext c context) (Some raw)]))
  /\ (truthy context = true -> llm env h (RTranslateWithContext c context) = None ->
      translate_with_context env c context h
      = translate_chunk env (mkChunk c (lit "paragraph"))
          (h ++ [ECall (RTranslateWithContext c context) None])).
Proof.
  unfold translate_with_context. split; [|split; [|split]].
  - destruct (truthy context).
    + unfold try_except, invoke.
      destruct (llm env h (RTranslateWithContext c context)); [eauto|].
      destruct (translate_chunk_spec env (mkChunk c (lit "paragraph"))
                  (h ++ [ECall (RTranslateWithContext c context) None])) as (ev & out & E & _).
      rewrite E, <- app_assoc. eauto.
    + destruct (translate_chunk_spec env (mkChunk c (lit "paragraph")) h) as (ev & out & E & _).
      rewrite E. eauto.
  - intros H. rewrite H. reflexivity.
  - intros raw H Hl. rewrite H. unfold try_except, invoke. rewrite Hl. reflexivity.
  - intros H Hl. rewrite H. unfold try_except, invoke. rewrite Hl. reflexivity.
Qed.

Lemma code_lines_step_count lines ev outs :
  code_lines_step lines ev outs ->
  length (filter is_chunk_translation_call ev) = length (filter is_comment_line lines).
Proof.
  induction 1 as [|line ev out lines evs outs Hs _ IH]; [reflexivity|].
  rewrite filter_app, length_app, IH.
  inversion Hs; subst; simpl; rewrite H; reflexivity.
Qed.

Lemma translate_chunk_count env chunk h :
  exists ev out, translate_chunk env chunk h = (Ret out, h ++ ev)
                 /\ length (filter is_chunk_translation_call ev) = chunk_call_count chunk.
Proof.
  unfold translate_chunk, chunk_call_count, try_except.
  destruct (pystr_eqb (chunk_type chunk) (lit "code")).
  - destruct (translate_code_block_spec env (content chunk) h) as (ev & outs & E & S).
    rewrite E. do 2 eexists; split; [reflexivity|].
    eapply code_lines_step_count; eauto.
  - unfold invoke, ret.
    destruct (llm env h (RTranslate (content chunk))); do 2 eexists; split; reflexivity.
Qed.

(** X6: the chunk loop of [translate_content] makes exactly one
    translation call per non-code chunk and one per comment line of each
    code chunk, whatever the model answers. *)
Theorem translate_chunks_call_count (env : Env) (chunks : list TextChunk) (h : log) :
  exists ev outs,
    translate_chunks env chunks h = (Ret outs, h ++ ev)
    /\ length (filter is_chunk_translation_call ev)
       = fold_right (fun chunk n => (chunk_call_count chunk + n)%nat) 0%nat chunks.
Proof.
  revert h; induction chunks as [|chunk chunks IH]; intros h.
  - exists [], []. split; [now rewrite app_nil_r | reflexivity].
  - simpl. unfold bind at 1.
    destruct (translate_chunk_count env chunk h) as (ev1 & o1 & E1 & C1).
    rewrite E1.
    destruct (IH (h ++ ev1)) as (ev2 & os & E2 & C2).
    unfold bind. rewrite E2.
    exists (ev1 ++ ev2), (o1 :: os); split.
    + unfold ret. now rewrite app_assoc.
    + rewrite filter_app, length_app, C1, C2. reflexivity.
Qed.

Lemma translate_code_lines_down env lines h :
  (forall h' r, llm env h' r = None) ->
  exists ev, translate_code_lines env lines h = (Ret lines, h ++ ev).
Proof.
  intros Hd. revert h; induction lines as [|line lines IH]; intros h.
  - exists []. now rewrite app_nil_r.
  - simpl. unfold bind at 1.
    assert (Hl : exists ev1, translate_code_line env line h = (Ret line, h ++ ev1)).
    { unfold translate_code_line. destruct (is_comment_line line).
      - unfold try_except, bind, invoke. rewrite Hd. eexists; reflexivity.
      - exists []. now rewrite app_nil_r. }
    destruct Hl as (ev1 & E1). rewrite E1.
    destruct (IH (h ++ ev1)) as (ev2 & E2).
    unfold bind. rewrite E2. exists (ev1 ++ ev2). unfold ret. now rewrite app_assoc.
Qed.

(** X7: when every model call raises, [translate_chunk] returns a code
    chunk exactly as it came (its comments untranslated) and any other
    chunk as the failure marker "翻译失败: " followed by its content. *)
Theorem translate_chunk_model_down (env : Env) (chunk : TextChunk) (h : log)
  (Hdown : forall h' r, llm env h' r = None) :
  exists ev,
    translate_chunk env chunk h
    = (Ret (if pystr_eqb (chunk_type chunk) (lit "code") then content chunk
            else failure_prefix ++ content chunk), h ++ ev).
Proof.
  unfold translate_chunk, try_except.
  destruct (pystr_eqb (chunk_type chunk) (lit "code")).
  - unfold _translate_code_block, bind.
    destruct (translate_code_lines_down env (split_lines (content chunk)) h Hdown) as (ev & E).
    rewrite E. exists ev. unfold ret. rewrite join_split_lines. reflexivity.
  - unfold invoke. rewrite Hdown. eexists; reflexivity.
Qed.

Lemma translate_with_context_fallback_witness :
  truthy (lit "ctx") = true
  /\ llm env_down [] (RTranslateWithContext (lit "Hi") (lit "ctx")) = None
  /\ translate_with_context env_down (lit "Hi") (lit "ctx") []
     = translate_chunk env_down (mkChunk (lit "Hi") (lit "paragraph"))
         [ECall (RTranslateWithContext (lit "Hi") (lit "ctx")) None].
Proof.
  split; [reflexivity|]. split; [reflexivity|].
  apply (proj2 (proj2 (proj2 (translate_with_context_fallback env_down (lit "Hi") (lit "ctx") []))));
    reflexivity.
Defined.

Lemma translate_chunk_model_down_witness :
  (forall h' r, llm env_down h' r = None)
  /\ exists ev,
    translate_chunk env_down (mkChunk (lit "# c") (lit "code")) []
    = (Ret (lit "# c"), [] ++ ev).
Proof.
  assert (Hd : forall h' r, llm env_down h' r = None) by reflexivity.
  split; [exact Hd|].
  exact (translate_chunk_model_down env_down (mkChunk (lit "# c") (lit "code")) [] Hd).
Defined.

(** ** Trimmed texts *)

Definition head_ok (t : pystr) : bool :=
  match t with [] => true | c :: _ => negb (isspace c) end.

Definition last_ok (t : pystr) : bool := head_ok (rev t).

Lemma lstrip_head_ok (t : pystr) : head_ok t = true -> lstrip t = t.
Proof.
  destruct t as [|c r]; simpl; [reflexivity|].
  intros H. apply negb_true_iff in H. rewrite H. reflexivity.
Qed.

Lemma lstrip_app_nonspace (x : pystr) (c : N) :
  isspace c = false -> lstrip (x ++ [c]) = lstrip x ++ [c].
Proof.
  intros Hc. induction x as [|d x IH]; simpl.
  - rewrite Hc. reflexivity.
  - destruct (isspace d); [exact IH | reflexivity].
Qed.

Lemma strip_head_ok (s : pystr) : head_ok (strip s) = true.
Proof.
  unfold strip, rstrip.
  destruct (lstrip_head s) as [E|(c & r & E & Hc)]; rewrite E; [reflexivity|].
  simpl. rewrite lstrip_app_nonspace by exact Hc. rewrite rev_app_distr. simpl.
  rewrite Hc. reflexivity.
Qed.

Lemma strip_last_ok (s : pystr) : last_ok (strip s) = true.
Proof.
  unfold last_ok. destruct (strip_last s) as [E|(p & c & E & Hc)]; rewrite E; [reflexivity|].
  rewrite rev_app_distr. simpl. rewrite Hc. reflexivity.
Qed.

Lemma strip_trimmed (t : pystr) : head_ok t = true -> last_ok t = true -> strip t = t.
Proof.
  intros H1 H2. unfold strip, rstrip. rewrite (lstrip_head_ok t H1).
  rewrite (lstrip_head_ok (rev t) H2). apply rev_involutive.
Qed.

Lemma strip_idem (s : pystr) : strip (strip s) = strip s.
Proof. apply strip_trimmed; [apply strip_head_ok | apply strip_last_ok]. Qed.

Lemma head_ok_app (x y : pystr) : x <> [] -> head_ok (x ++ y) = head_ok x.
Proof. destruct x; [contradiction | reflexivity]. Qed.

Lemma last_ok_app (x y : pystr) : y <> [] -> last_ok (x ++ y) = last_ok y.
Proof.
  intros Hy. unfold last_ok. rewrite rev_app_distr.
  apply head_ok_app. intros E. apply Hy. rewrite <- (rev_involutive y), E. reflexivity.
Qed.

Lemma join_trimmed (sep : pystr) (xs : list pystr) :
  Forall (fun x => x <> [] /\ head_ok x = true /\ last_ok x = true) xs ->
  head_ok (join sep xs) = true /\ last_ok (join sep xs) = true
  /\ (xs <> [] -> join sep xs <> []).
Proof.
  induction 1 as [|x xs (Hx & H1 & H2) Hxs IH];
    [split; [reflexivity | split; [reflexivity | intros H; contradiction]]|].
  destruct xs as [|y ys].
  - repeat split; auto.
  - destruct IH as (IH1 & IH2 & IH3).
    assert (Hne : join sep (y :: ys) <> []) by (apply IH3; discriminate).
    change (join sep (x :: y :: ys)) with (x ++ sep ++ join sep (y :: ys)).
    rewrite head_ok_app by exact Hx.
    rewrite app_assoc, last_ok_app by exact Hne.
    repeat split; auto. intros _ E. apply app_eq_nil in E as [_ E]. contradiction.
Qed.

Lemma merge_stripped (translated_chunks : list pystr) :
  strip (_merge_translated_chunks translated_chunks) = _merge_translated_chunks translated_chunks.
Proof.
  unfold _merge_translated_chunks.
  destruct (join_trimmed [newline; newline]
              (map strip (filter (fun chunk => truthy (strip chunk)) translated_chunks)))
    as (H1 & H2 & _).
  - apply Forall_map, Forall_forall. intros x Hx. apply filter_In in Hx as [_ Hx].
    repeat split; [|apply strip_head_ok | apply strip_last_ok].
    destruct (strip x); [discriminate | congruence].
  - apply strip_trimmed; assumption.
Qed.

(** X8: the merged translation never starts or ends with whitespace, and
    merging is idempotent: merging the single text [_merge_translated_chunks l]
    gives it back. *)
Theorem merge_trimmed_idempotent (translated_chunks : list pystr) :
  strip (_merge_translated_chunks translated_chunks) = _merge_translated_chunks translated_chunks
  /\ _merge_translated_chunks [_merge_translated_chunks translated_chunks]
     = _merge_translated_chunks translated_chunks.
Proof.
  pose proof (merge_stripped translated_chunks) as Ht.
  split; [exact Ht|].
  set (m := _merge_translated_chunks translated_chunks) in *.
  unfold _merge_translated_chunks at 1. simpl. rewrite Ht.
  destruct m as [|n p] eqn:Em; [reflexivity|].
  change (strip (n :: p) = n :: p). exact Ht.
Qed.

(** X9: the translation [translate_content] returns never starts or ends
    with whitespace, whether it is the merged translation or the output of
    a focused retranslation. *)
Theorem translate_content_output_stripped (env : Env) (content : pystr) :
  exists out st lg,
    translate_content env content [] = (Ret (out, st), lg) /\ strip out = out.
Proof.
  destruct (translate_content_shape env content)
    as (os & ev & outs & ts & cr & rest & res & E & Hev & L & R & B).
  inversion B; subst; do 3 eexists; (split; [exact R|]);
    first [apply merge_stripped | apply strip_idem].
Qed.

(** X10: when the chunker yields no chunk, no translation call is made,
    [chunk_count] is 0 and the returned text is the empty string, unless a
    focused retranslation replaced it with its (stripped) output. *)
Theorem translate_content_no_chunks (env : Env) (content : pystr)
  (Hnone : chunk_text env content = []) :
  exists out st lg,
    translate_content env content [] = (Ret (out, st), lg)
    /\ filter is_chunk_translation_call lg = []
    /\ chunk_count st = 0%nat
    /\ (out = [] \/ exists m raw, In (ECall (RRetranslate content m) (Some raw)) lg
                                  /\ out = strip raw).
Proof.
  destruct (translate_content_shape env content)
    as (os & ev & outs & ts & cr & rest & res & E & Hev & L & R & B).
  rewrite Hnone in E, L, B. simpl in E. injection E; intros; subst.
  inversion B; subst; do 3 eexists; (split; [exact R|]); simpl; split; try reflexivity;
    split; try reflexivity.
  - left; reflexivity.
  - left; reflexivity.
  - left; reflexivity.
  - right. do 2 eexists. split; [|reflexivity].
    right; right; right; left; reflexivity.
Qed.

Lemma translate_content_no_chunks_witness :
  chunk_text env_no_chunks (lit "a") = []
  /\ exists out st lg,
    translate_content env_no_chunks (lit "a") [] = (Ret (out, st), lg)
    /\ filter is_chunk_translation_call lg = []
    /\ chunk_count st = 0%nat
    /\ (out = [] \/ exists m raw, In (ECall (RRetranslate (lit "a") m) (Some raw)) lg
                                 /\ out = strip raw).
Proof.
  assert (H : chunk_text env_no_chunks (lit "a") = []) by reflexivity.
  split; [exact H|]. exact (translate_content_no_chunks env_no_chunks (lit "a") H).
Defined.

Lemma run_log_retranslation_in content os ev merged ts cr rest o m r :
  Forall is_translate_call ev ->
  In (ECall (RRetranslate o m) r)
     ([ESummaryOriginal content os] ++ ev ++ [ESummaryTranslated merged ts; ECompare os ts cr] ++ rest) ->
  In (ECall (RRetranslate o m) r) rest.
Proof.
  intros Hev Hi. simpl in Hi. destruct Hi as [Hi|Hi]; [discriminate|].
  apply in_app_or in Hi as [Hi|Hi].
  - exfalso. eapply translate_calls_no_retranslation; eauto.
  - destruct Hi as [Hi|[Hi|Hi]]; [discriminate | discriminate | exact Hi].
Qed.

(** X11: a run of [translate_content] generates one or two translated
    summaries, as many comparisons as translated summaries, and two of each
    exactly when the focused retranslation returned a text that is
    non-empty after stripping. *)
Theorem translate_content_summary_budget (env : Env) (content : pystr) :
  exists res lg,
    translate_content env content [] = (Ret res, lg)
    /\ count_comparisons lg = count_translated_summaries lg
    /\ (count_translated_summaries lg = 1%nat \/ count_translated_summaries lg = 2%nat)
    /\ (count_translated_summaries lg = 2%nat
        <-> exists m raw, In (ECall (RRetranslate content m) (Some raw)) lg
                          /\ truthy (strip raw) = true).
Proof.
  destruct (translate_content_shape env content)
    as (os & ev & outs & ts & cr & rest & res & E & Hev & L & R & B).
  exists res. eexists. split; [exact R|].
  split; [|split; [|split]].
  - unfold count_comparisons, count_translated_summaries.
    rewrite !run_log_counts by (reflexivity || assumption).
    inversion B; subst; reflexivity.
  - unfold count_translated_summaries.
    rewrite !run_log_counts by (reflexivity || assumption).
    inversion B; subst; simpl; auto.
  - unfold count_translated_summaries.
    rewrite !run_log_counts by (reflexivity || assumption).
    inversion B as [Hn| Hn | raw' Hn Ht | raw' ts' cr' Hn Ht]; subst; simpl; [discriminate|discriminate|discriminate|].
    intros _. exists (missing_content cr), raw'. split; [|exact Ht].
    right. apply in_or_app. right. right. right. left. reflexivity.
  - intros (m & raw & Hi & Htr). apply run_log_retranslation_in in Hi; [|exact Hev].
    unfold count_translated_summaries.
    rewrite !run_log_counts by (reflexivity || assumption).
    inversion B; subst; simpl in Hi.
    + contradiction.
    + destruct Hi as [Hi|[]]. discriminate.
    + destruct Hi as [Hi|[]]. injection Hi as _ Hr. subst. congruence.
    + reflexivity.
Qed.
